(** * px4esc FOC core: controller facade and rotor-state observer

    Shallow embedding of [firmware/src/foc/foc.hpp] and
    [firmware/src/foc/observer.hpp].

    Conventions.
    - In the controller and where the class [Observer] only reads and
      copies its members, a [math::Scalar] is kept as the number it stands
      for, an exact rational [Q]. [math::Const] is [const math::Scalar].
    - Where the class computes, [math::Scalar] is the C++ [float]: module
      [Observer.Single] has the binary32 values, infinities and NaN
      included, with the rounded addition and multiplication of the
      standard library's specification of floating-point arithmetic.
    - A [void f(args)] of the [foc] namespace acts on the controller context
      and is embedded as a function [args -> Controller -> Controller].
    - A method of [class Observer] is embedded in a small state monad over
      the object; a [const] method is one that only reads it. *)

From Stdlib Require Import ZArith QArith Qround Qpower Bool List String Lia Lqa.
From Stdlib Require Import SpecFloat.
Import ListNotations.

Local Open Scope Q_scope.

(** ** math/math.hpp (fixed-size linear algebra) *)

Module math.

Definition Scalar : Type := Q.
Definition Const : Type := Scalar.

(** Modelled from the spec: [math::Pi] is declared in [math/math.hpp], which
    is not part of the sources; the spec names the principal range by pi.
    This is the single-precision value nearest to pi, 13176795 * 2^-22. *)
Definition Pi : Scalar := 13176795 # 4194304.

(** A column of [n] coefficients whose size is part of the type, as with
    the fixed-size matrix templates of the C++ code. *)
Fixpoint Vec (A : Type) (n : nat) : Type :=
  match n with
  | O => unit
  | S m => (A * Vec A m)%type
  end.

Definition Vector (n : nat) : Type := Vec Scalar n.
Definition Matrix (rows cols : nat) : Type := Vec (Vec Scalar cols) rows.
(** [math::DiagonalMatrix<n>] stores the diagonal only. *)
Definition DiagonalMatrix (n : nat) : Type := Vec Scalar n.

(** [v[i]]; the C++ library asserts [i < n], here an index out of range
    reads the default [d]. *)
Fixpoint coeff {A : Type} {n : nat} (d : A) : Vec A n -> nat -> A :=
  match n return Vec A n -> nat -> A with
  | O => fun _ _ => d
  | S m => fun v i =>
      match i with
      | O => fst v
      | S j => coeff d (snd v) j
      end
  end.


Fixpoint head {A : Type} (p : nat) {q : nat} : Vec A (p + q) -> Vec A p :=
  match p return Vec A (p + q) -> Vec A p with
  | O => fun _ => tt
  | S p' => fun v => (fst v, head p' (snd v))
  end.

Fixpoint tail {A : Type} (start : nat) {m : nat} : Vec A (start + m) -> Vec A m :=
  match start return Vec A (start + m) -> Vec A m with
  | O => fun v => v
  | S s' => fun v => tail s' (snd v)
  end.

(** [v.block<p, 1>(start, 0)] on a column vector: the [p] coefficients
    from row [start] on. *)
Definition block {A : Type} (p start : nat) {q : nat}
    (v : Vec A (start + (p + q))) : Vec A p :=
  head p (tail start v).

Fixpoint constant {A : Type} (n : nat) (a : A) : Vec A n :=
  match n with
  | O => tt
  | S m => (a, constant m a)
  end.

Fixpoint map {A B : Type} {n : nat} (f : A -> B) : Vec A n -> Vec B n :=
  match n return Vec A n -> Vec B n with
  | O => fun _ => tt
  | S m => fun v => (f (fst v), map f (snd v))
  end.

(** The dense matrix of a diagonal one. *)
Fixpoint asDense {n : nat} : DiagonalMatrix n -> Matrix n n :=
  match n return DiagonalMatrix n -> Matrix n n with
  | O => fun _ => tt
  | S m => fun d =>
      ((fst d, constant m 0),
       map (fun row : Vec Scalar m => (0, row)) (asDense (snd d)))
  end.

Definition makeDiagonalMatrix2 (a b : Scalar) : DiagonalMatrix 2 :=
  (a, (b, tt)).
Definition makeDiagonalMatrix4 (a b c d : Scalar) : DiagonalMatrix 4 :=
  (a, (b, (c, (d, tt)))).

End math.

(** ** foc.hpp: the public state of the control logic *)

Module foc.

Import math.

Inductive State : Type :=
| Idle
| MotorIdentification
| HardwareTesting
| Spinup
| Running
| Fault.

(** The value an [enum class State] object holds; the enumerators are
    numbered in declaration order. *)
Definition State_value (s : State) : Z :=
  match s with
  | Idle => 0
  | MotorIdentification => 1
  | HardwareTesting => 2
  | Spinup => 3
  | Running => 4
  | Fault => 5
  end%Z.

Definition all_states : list State :=
  [Idle; MotorIdentification; HardwareTesting; Spinup; Running; Fault].

(** [stateToString], on the value held by its argument: the [switch] has
    one [case] per enumerator and control falls out of it, to the final
    [return "BADSTATE"], for every other value. *)
Definition stateToString_value (s : Z) : string :=
  match s with
  | 0%Z => "Idle"
  | 1%Z => "MotorID"
  | 2%Z => "HWTest"
  | 3%Z => "Spinup"
  | 4%Z => "Running"
  | 5%Z => "Fault"
  | _ => "BADSTATE"
  end%string.

Definition stateToString (s : State) : string :=
  stateToString_value (State_value s).

(** [ControlMode] is declared in [common.hpp] and [motor_id::Mode] in
    [motor_id/task.hpp]; neither header is part of the sources. Both are
    enumerations, kept here by the value they hold: [ControlMode(0)] is
    [ControlMode_cast 0]. *)
Inductive ControlMode : Type := ControlMode_cast (underlying : Z).
Inductive motor_id_Mode : Type := motor_id_Mode_cast (underlying : Z).

(** *** The facade functions defined in the header

    [setSetpoint] is only declared in [foc.hpp]; [stop] is defined there in
    terms of it, whatever its definition is. *)
Section Facade.

Context {Context_ : Type}.
Variable setSetpoint : ControlMode -> Const -> Const -> Context_ -> Context_.

Definition stop : Context_ -> Context_ :=
  setSetpoint (ControlMode_cast 0) 0 0.

End Facade.

(** *** The controller state machine behind the facade

    Modelled from the spec: [setSetpoint], [beginMotorIdentification],
    [beginHardwareTest] and [getState] are declared in [foc.hpp] and defined
    in a translation unit that is not part of the sources, as is the control
    tick. What follows is the state machine of the spec: its transition
    table, the staging of facade writes into a side buffer that the tick
    commits, the busy rejection and the setpoint time-to-live. *)

(** The last accepted setpoint, "with an absolute expiry time computed as
    issue_time + ttl". *)
Record ControlCommand : Type := {
  control_mode : ControlMode;
  value : Scalar;
  expiry : Scalar
}.

(** What a facade call leaves in the side buffer for the next tick. *)
Inductive Request : Type :=
| SetpointRequest (control_mode : ControlMode) (value request_ttl issue_time : Const)
| MotorIdentificationRequest (mode : motor_id_Mode)
| HardwareTestRequest.

Record Controller : Type := {
  state : State;
  command : option ControlCommand;
  staged : option Request;
  clock : Scalar;
  error_count : nat
}.

(** "Initial state: Idle". *)
Definition initial : Controller :=
  {| state := Idle; command := None; staged := None; clock := 0; error_count := 0 |}.

Inductive SpinupFailure : Type := Benign | Severe.

(** What the collaborators report to one control tick: the time, and for each
    procedure whether it is still in progress or how it ended. *)
Record TickInput : Type := {
  now : Scalar;
  identification_completed : bool;
  hardware_test_result : option bool;
  spinup_result : option (option SpinupFailure);
  runtime_fault : bool
}.

Definition is_idle (s : State) : bool :=
  match s with Idle => true | _ => false end.

Definition is_driving (s : State) : bool :=
  match s with Spinup | Running => true | _ => false end.

Definition stage (r : Request) (c : Controller) : Controller :=
  {| state := state c; command := command c; staged := Some r;
     clock := clock c; error_count := error_count c |}.

Definition discard_staged (c : Controller) : Controller :=
  {| state := state c; command := command c; staged := None;
     clock := clock c; error_count := error_count c |}.

Definition enter (s : State) (c : Controller) : Controller :=
  {| state := s; command := command c; staged := staged c;
     clock := clock c; error_count := error_count c |}.

(** The stop: the motor is released, the fault if any is cleared. *)
Definition stopped (c : Controller) : Controller :=
  {| state := Idle; command := None; staged := None;
     clock := clock c; error_count := error_count c |}.

(** A fault is latched and counted; the motor is released. *)
Definition faulted (c : Controller) : Controller :=
  {| state := Fault; command := None; staged := staged c;
     clock := clock c; error_count := S (error_count c) |}.

Definition started (control_mode : ControlMode) (value request_ttl issue_time : Const)
    (c : Controller) : Controller :=
  {| state := Spinup;
     command := Some {| control_mode := control_mode; value := value;
                        expiry := issue_time + request_ttl |};
     staged := None; clock := clock c; error_count := error_count c |}.

Definition getState (c : Controller) : State := state c.

Definition getErrorCount (c : Controller) : nat := error_count c.

(** A zero value is the stop and is always accepted; any other setpoint is
    accepted only in [Idle]. An accepted call is staged, a rejected one does
    nothing. *)
Definition setSetpoint (control_mode : ControlMode) (value request_ttl : Const)
    (c : Controller) : Controller :=
  if Qeq_bool value 0 || is_idle (state c)
  then stage (SetpointRequest control_mode value request_ttl (clock c)) c
  else c.

Definition beginMotorIdentification (mode : motor_id_Mode) (c : Controller)
    : Controller :=
  if is_idle (state c) then stage (MotorIdentificationRequest mode) c else c.

Definition beginHardwareTest (c : Controller) : Controller :=
  if is_idle (state c) then stage HardwareTestRequest c else c.

(** The tick takes the staged request, if any, at its start. *)
Definition commit (c : Controller) : Controller :=
  match staged c with
  | None => c
  | Some (SetpointRequest control_mode value request_ttl issue_time) =>
      if Qeq_bool value 0 then stopped c
      else if is_idle (state c)
           then started control_mode value request_ttl issue_time c
           else discard_staged c
  | Some (MotorIdentificationRequest _) =>
      if is_idle (state c) then enter MotorIdentification (discard_staged c)
      else discard_staged c
  | Some HardwareTestRequest =>
      if is_idle (state c) then enter HardwareTesting (discard_staged c)
      else discard_staged c
  end.

(** "Every tick while in Spinup/Running, if now >= expiry". *)
Definition expired (t : Scalar) (c : Controller) : bool :=
  is_driving (state c) &&
  match command c with
  | Some cmd => Qle_bool (expiry cmd) t
  | None => false
  end.

Definition expire (t : Scalar) (c : Controller) : Controller :=
  if expired t c then stopped c else c.

(** The transition table, for the triggers that come from the collaborators. *)
Definition advance (i : TickInput) (c : Controller) : Controller :=
  match state c with
  | Idle => c
  | MotorIdentification =>
      if identification_completed i then enter Idle c else c
  | HardwareTesting =>
      match hardware_test_result i with
      | None => c
      | Some true => enter Idle c
      | Some false => faulted c
      end
  | Spinup =>
      match spinup_result i with
      | None => c
      | Some None => enter Running c
      | Some (Some Benign) => stopped c
      | Some (Some Severe) => faulted c
      end
  | Running => if runtime_fault i then faulted c else c
  | Fault => c
  end.

Definition set_clock (t : Scalar) (c : Controller) : Controller :=
  {| state := state c; command := command c; staged := staged c;
     clock := t; error_count := error_count c |}.

(** One control tick of the state machine. *)
Definition tick (i : TickInput) (c : Controller) : Controller :=
  set_clock (now i) (advance i (expire (now i) (commit c))).

Fixpoint run (inputs : list TickInput) (c : Controller) : Controller :=
  match inputs with
  | [] => c
  | i :: rest => run rest (tick i c)
  end.

(** A tick at time [t] on which no collaborator reports anything. *)
Definition quiet (t : Scalar) : TickInput :=
  {| now := t; identification_completed := false; hardware_test_result := None;
     spinup_result := None; runtime_fault := false |}.

(** The invariant of the ticks between two facade calls: nothing is staged,
    and a driving controller holds the command [cmd] it was started with. *)
Definition keeps_command (cmd : ControlCommand) (c : Controller) : Prop :=
  staged c = None /\ (is_driving (state c) = true -> command c = Some cmd).

(** A tick at time [t] on which the spin-up reports success. *)
Definition spinup_succeeded (t : Scalar) : TickInput :=
  {| now := t; identification_completed := false; hardware_test_result := None;
     spinup_result := Some None; runtime_fault := false |}.

(** The scenario of the spec: [setSetpoint(mode, 5.0, 1.0)] at time 0, the
    motor spun up and running. *)
Definition running_example : Controller :=
  {| state := Running;
     command := Some {| control_mode := ControlMode_cast 0; value := 5; expiry := 1 |};
     staged := None; clock := 1; error_count := 0 |}.

Definition after_spinup_example : Controller :=
  run [spinup_succeeded (1 # 10); quiet (1 # 2)]
      (tick (quiet 0) (setSetpoint (ControlMode_cast 0) 5 1 initial)).

(** The scenario of the spec: motor identification is in progress. *)
Definition identifying_example : Controller :=
  tick (quiet 0) (beginMotorIdentification (motor_id_Mode_cast 0) initial).

(** ** observer.hpp *)

(** [struct ObserverParameters], with the default member initialisers. *)
Module ObserverParameters.

Record t : Type := {
  Q : DiagonalMatrix 4;
  R : DiagonalMatrix 2;
  P0 : DiagonalMatrix 4;
  cross_coupling_compensation : Scalar
}.

Definition default : t := {|
  Q := makeDiagonalMatrix4 100 100 5000 5;
  R := makeDiagonalMatrix2 2 2;
  P0 := makeDiagonalMatrix4 100 100 5000 5000;
  cross_coupling_compensation := 1 # 2
|}.

Definition toString (p : t) : string := "<NOT IMPLEMENTED>"%string.

End ObserverParameters.

(** [class Observer]. *)
Module Observer.

Record t : Type := {
  phi_ : Const;
  ld_ : Const;
  lq_ : Const;
  r_ : Const;
  cross_coupling_comp_ : Const;
  Q_ : Matrix 4 4;
  R_ : Matrix 2 2;
  C_ : Matrix 2 4;
  (* Filter states *)
  x_ : Vector 4;
  P_ : Matrix 4 4
}.

Definition StateIndexAngularVelocity : nat := 2.
Definition StateIndexAngularPosition : nat := 3.

(** A method is run on an object and yields its result and the object
    after the call. *)
Definition Method (A : Type) : Type := t -> A * t.

Definition ret {A : Type} (a : A) : Method A := fun self => (a, self).

Definition bind {A B : Type} (m : Method A) (k : A -> Method B) : Method B :=
  fun self => let (a, self') := m self in k a self'.

(** Reading a member or an expression over the members: all a [const]
    method can do to its object. *)
Definition read {A : Type} (f : t -> A) : Method A := fun self => (f self, self).

(** Assigning the two filter states, the only members that are not [const]. *)
Definition assign_states (x : Vector 4) (P : Matrix 4 4) : Method unit :=
  fun self =>
    (tt, {| phi_ := phi_ self; ld_ := ld_ self; lq_ := lq_ self; r_ := r_ self;
            cross_coupling_comp_ := cross_coupling_comp_ self;
            Q_ := Q_ self; R_ := R_ self; C_ := C_ self;
            x_ := x; P_ := P |}).

Declare Scope method_scope.
Delimit Scope method_scope with method.
Notation "x <- m ;; k" := (bind m (fun x => k))
  (at level 61, m at next level, right associativity) : method_scope.

(** Modelled from the spec: [constrainAngularPosition] is declared in the
    class and defined in a translation unit that is not part of the sources.
    The spec: the position is "wrapped to canonical range", "a fixed
    principal range (e.g. (-pi, pi])", also when it is more than one
    revolution away. The value is moved by the whole number of revolutions
    that brings it into (-Pi, Pi]. *)
Definition constrainAngularPosition (x : Const) : Scalar :=
  x - inject_Z (Qceiling ((x - Pi) / (2 * Pi))) * (2 * Pi).

Definition getIdq : Method (Vector 2) :=
  read (fun self => block 2 0 (q := 2) (x_ self)).

Definition getAngularVelocity : Method Scalar :=
  read (fun self => coeff 0 (x_ self) StateIndexAngularVelocity).

(** This is much faster than running another Kalman time propagation step.
    Here on the numbers, sum and product exact; with the rounding and the
    overflow of [float] it is [Single.getInterpolatedAngularPosition]. *)
Definition getInterpolatedAngularPosition (time_since_update : Const)
    : Method Scalar :=
  (position <- read (fun self => coeff 0 (x_ self) StateIndexAngularPosition) ;;
   velocity <- getAngularVelocity ;;
   ret (constrainAngularPosition (position + time_since_update * velocity)))%method.

(** An observer at rest, with the default parameters. *)
Definition constructed_example : t :=
  {| phi_ := 1; ld_ := 1 # 1000; lq_ := 1 # 1000; r_ := 1;
     cross_coupling_comp_ := 1 # 2;
     Q_ := asDense (makeDiagonalMatrix4 100 100 5000 5);
     R_ := asDense (makeDiagonalMatrix2 2 2);
     C_ := ((1, (0, (0, (0, tt)))), ((0, (1, (0, (0, tt)))), tt));
     x_ := constant 4 0;
     P_ := asDense (makeDiagonalMatrix4 100 100 5000 5000) |}.

(** *** The arithmetic of the class in single precision

    [math::Scalar] is [float]: the binary32 format, with 24 bits of
    precision and infinities at exponent 128. Its values and its rounded
    operations are those of the standard library's specification of
    floating-point arithmetic, at these two parameters. *)
Module Single.

Definition prec : Z := 24.
Definition emax : Z := 128.

Definition Scalar : Type := spec_float.
Definition Const : Type := Scalar.

Definition add : Scalar -> Scalar -> Scalar := SFadd prec emax.
Definition mul : Scalar -> Scalar -> Scalar := SFmul prec emax.

Definition zero : Scalar := S754_zero false.


(** The number a finite value stands for; an infinity and a NaN stand for
    none. *)
Definition value (x : Scalar) : option Q :=
  match x with
  | S754_zero _ => Some 0
  | S754_finite s m e => Some (inject_Z (cond_Zopp s (Zpos m)) * 2 ^ e)
  | S754_infinity _ | S754_nan => None
  end.

(** Modelled from the spec: [math::Pi] as a [float], the value of
    [math.Pi]: mantissa 13176795, exponent -22. *)
Definition Pi_mantissa : Z := 13176795.
Definition Pi_exponent : Z := -22.
Definition Pi : Scalar := S754_finite false (Z.to_pos Pi_mantissa) Pi_exponent.


(** The value [n * 2^e] with the mantissa shifted left as far as the format
    asks for; nothing is rounded. *)
Definition normalize (n : Z) (e : Z) : Scalar :=
  match n with
  | Z0 => S754_zero false
  | Zpos m =>
      let '(mz, ez) := shl_align m e (fexp prec emax (Zpos (digits2_pos m) + e)) in
      S754_finite false mz ez
  | Zneg m =>
      let '(mz, ez) := shl_align m e (fexp prec emax (Zpos (digits2_pos m) + e)) in
      S754_finite true mz ez
  end.

Record t : Type := {
  phi_ : Const;
  ld_ : Const;
  lq_ : Const;
  r_ : Const;
  cross_coupling_comp_ : Const;
  Q_ : Vec (Vec Scalar 4) 4;
  R_ : Vec (Vec Scalar 2) 2;
  C_ : Vec (Vec Scalar 4) 2;
  (* Filter states *)
  x_ : Vec Scalar 4;
  P_ : Vec (Vec Scalar 4) 4
}.

Definition Method (A : Type) : Type := t -> A * t.

Definition ret {A : Type} (a : A) : Method A := fun self => (a, self).

Definition bind {A B : Type} (m : Method A) (k : A -> Method B) : Method B :=
  fun self => let (a, self') := m self in k a self'.

Definition read {A : Type} (f : t -> A) : Method A := fun self => (f self, self).

Definition assign_states (x : Vec Scalar 4) (P : Vec (Vec Scalar 4) 4) : Method unit :=
  fun self =>
    (tt, {| phi_ := phi_ self; ld_ := ld_ self; lq_ := lq_ self; r_ := r_ self;
            cross_coupling_comp_ := cross_coupling_comp_ self;
            Q_ := Q_ self; R_ := R_ self; C_ := C_ self;
            x_ := x; P_ := P |}).

Declare Scope single_scope.
Delimit Scope single_scope with single.
Notation "x <- m ;; k" := (bind m (fun x => k))
  (at level 61, m at next level, right associativity) : single_scope.

(** Modelled from the spec: [constrainAngularPosition] is declared in the
    class and defined in a translation unit that is not part of the sources.
    The spec: the position is "wrapped to canonical range", "a fixed
    principal range (e.g. (-pi, pi])", also when it is more than one
    revolution away. A finite value is moved by the whole number of
    revolutions [2 * Pi] that brings it into (-Pi, Pi]: with [c] the smaller
    of the exponents of the value and of [Pi], the value is [X * 2^c], [Pi]
    is [P * 2^c], and the result is [(P - (P - X) mod (2 * P)) * 2^c],
    computed on the integers and so without rounding. An infinity or a NaN
    is returned as it is: no number of revolutions makes a number of it. *)
Definition constrainAngularPosition (x : Const) : Scalar :=
  match x with
  | S754_finite s m e =>
      let c := Z.min e Pi_exponent in
      let X := (cond_Zopp s (Zpos m) * 2 ^ (e - c))%Z in
      let P := (Pi_mantissa * 2 ^ (Pi_exponent - c))%Z in
      normalize (P - (P - X) mod (2 * P))%Z c
  | _ => x
  end.

Definition getAngularVelocity : Method Scalar :=
  read (fun self => coeff zero (x_ self) StateIndexAngularVelocity).

(** This is much faster than running another Kalman time propagation step. *)
Definition getInterpolatedAngularPosition (time_since_update : Const)
    : Method Scalar :=
  (position <- read (fun self => coeff zero (x_ self) StateIndexAngularPosition) ;;
   velocity <- getAngularVelocity ;;
   ret (constrainAngularPosition (add position (mul time_since_update velocity))))%single.

(** Modelled from the spec: [update] is declared in the class and defined in
    a translation unit that is not part of the sources. The spec: one
    "predict-then-correct Kalman cycle", then "after correction, wrap
    theta_mech into its canonical range"; it "mutates internal x/P only".
    The spec gives no formula for the two filter steps, so they are taken
    as they come: [predict] from the object, [dt] and the applied voltages,
    [correct] from the object, the prediction and the measured currents. *)
Section Update.

Variable predict : t -> Const -> Vec Scalar 2 -> Vec Scalar 4 * Vec (Vec Scalar 4) 4.
Variable correct : t -> Vec Scalar 4 * Vec (Vec Scalar 4) 4 -> Vec Scalar 2
                   -> Vec Scalar 4 * Vec (Vec Scalar 4) 4.


End Update.

Definition ten : Scalar := S754_finite false 10485760 (-20).

(** An observer whose state vector is [x], everything else zero. *)
Definition with_state (x : Vec Scalar 4) : t :=
  {| phi_ := zero; ld_ := zero; lq_ := zero; r_ := zero;
     cross_coupling_comp_ := zero;
     Q_ := constant 4 (constant 4 zero);
     R_ := constant 2 (constant 2 zero);
     C_ := constant 2 (constant 4 zero);
     x_ := x;
     P_ := constant 4 (constant 4 zero) |}.

Definition one : Scalar := S754_finite false 8388608 (-23).

Definition fast_example : t :=
  with_state (zero, (zero, (ten, (zero, tt)))).

End Single.

End Observer.

End foc.

(** * Properties *)

Import math foc.

(** ** The facade and the state machine *)

Lemma Qeq_bool_false_of_neq (v : Scalar) : ~ v == 0 -> Qeq_bool v 0 = false.
Proof.
  intros Hv. destruct (Qeq_bool v 0) eqn:E; [|reflexivity].
  exfalso. apply Hv. now apply Qeq_bool_iff.
Qed.

Lemma is_idle_false (s : State) : s <> Idle -> is_idle s = false.
Proof. destruct s; simpl; congruence. Qed.

Lemma is_idle_false_of_driving (s : State) : is_driving s = true -> is_idle s = false.
Proof. destruct s; simpl; congruence. Qed.

(** A stop that is staged leaves the same controller behind the commit as
    the stop itself, whatever was staged before. *)
Lemma commit_staged_stop (c : Controller) (m : ControlMode) (ttl t0 : Const) :
  commit (stage (SetpointRequest m 0 ttl t0) c) = stopped c.
Proof. reflexivity. Qed.

Lemma expire_stopped (t : Scalar) (c : Controller) :
  expire t (stopped c) = stopped c.
Proof. reflexivity. Qed.

Lemma advance_stopped (i : TickInput) (c : Controller) :
  advance i (stopped c) = stopped c.
Proof. reflexivity. Qed.

(** Behind the commit a driving controller is driving with the same command,
    or it was stopped by a staged zero setpoint. *)
Lemma commit_driving (c : Controller) :
  is_driving (state c) = true ->
  commit c = stopped c \/
  (state (commit c) = state c /\ command (commit c) = command c /\
   stopped (commit c) = stopped c).
Proof.
  intros Hd. pose proof (is_idle_false_of_driving _ Hd) as Hi.
  unfold commit. destruct (staged c) as [[m v ttl t0 | mode |] |] eqn:Hs.
  - destruct (Qeq_bool v 0); [now left|]. rewrite Hi. right. now repeat split.
  - rewrite Hi. right. now repeat split.
  - rewrite Hi. right. now repeat split.
  - right. now repeat split.
Qed.

(** C1. From each of the six states, [setSetpoint] with value 0 and ttl 0
    makes the state that [getState] reads after the next control tick
    [Idle], whatever the tick's inputs are and whatever control mode was
    given; from [Fault] this clears the latched fault. *)
Theorem zero_setpoint_universal_stop :
  forall (c : Controller) (control_mode : ControlMode) (i : TickInput),
    getState (tick i (setSetpoint control_mode 0 0 c)) = Idle.
Proof.
  intros c control_mode i.
  unfold setSetpoint. change (Qeq_bool 0 0) with true. rewrite orb_true_l.
  unfold tick. rewrite commit_staged_stop, expire_stopped, advance_stopped.
  reflexivity.
Qed.

(** A tick taken while driving, at a time that has reached the expiry of the
    active setpoint, leaves the stopped controller. *)
Lemma tick_expired (c : Controller) (cmd : ControlCommand) (i : TickInput) :
  is_driving (state c) = true ->
  command c = Some cmd ->
  expiry cmd <= now i ->
  tick i c = set_clock (now i) (stopped c).
Proof.
  intros Hd Hcmd Hexp.
  unfold tick. destruct (commit_driving c Hd) as [-> | (Hs & Hc & Hst)].
  - reflexivity.
  - unfold expire, expired. rewrite Hs, Hc, Hd, Hcmd. simpl.
    apply Qle_bool_iff in Hexp. rewrite Hexp, Hst. reflexivity.
Qed.

Lemma tick_stop (c : Controller) (i : TickInput) :
  tick i (stop setSetpoint c) = set_clock (now i) (stopped c).
Proof. reflexivity. Qed.

(** While no facade call is made, a driving controller keeps its command. *)
Lemma tick_keeps_command (cmd : ControlCommand) (i : TickInput) (c : Controller) :
  keeps_command cmd c -> keeps_command cmd (tick i c).
Proof.
  intros [Hs Hc]. unfold tick, commit. rewrite Hs.
  unfold expire. destruct (expired (now i) c) eqn:He.
  - split; [reflexivity | discriminate].
  - destruct c as [s k st t n]. simpl in Hs, Hc. subst st.
    unfold keeps_command, advance; simpl.
    destruct s; simpl in *;
      repeat match goal with
             | |- context [if ?b then _ else _] => destruct b
             | |- context [match ?o with Some _ => _ | None => _ end] => destruct o
             | |- context [match ?f with Benign => _ | Severe => _ end] => destruct f
             end;
      simpl; split; auto; discriminate.
Qed.

Lemma run_keeps_command (cmd : ControlCommand) (inputs : list TickInput) :
  forall c : Controller, keeps_command cmd c -> keeps_command cmd (run inputs c).
Proof.
  induction inputs as [| i rest IH]; intros c H; simpl.
  - exact H.
  - apply IH. now apply tick_keeps_command.
Qed.

(** A setpoint accepted in [Idle] is recorded with the expiry "issue time
    plus ttl" by the tick that follows the call. *)
Lemma accepted_keeps_command (c : Controller) (m : ControlMode)
    (v ttl : Const) (i : TickInput) :
  state c = Idle -> ~ v == 0 ->
  keeps_command {| control_mode := m; value := v; expiry := clock c + ttl |}
                (tick i (setSetpoint m v ttl c)).
Proof.
  intros Hi Hv. unfold setSetpoint. rewrite Hi. rewrite orb_true_r.
  unfold tick, commit. simpl. rewrite (Qeq_bool_false_of_neq v Hv), Hi. simpl.
  unfold expire. destruct (expired _ _).
  - split; [reflexivity | discriminate].
  - unfold keeps_command, advance, started; simpl.
    destruct (spinup_result i) as [[[|]|]|]; simpl; split; auto; discriminate.
Qed.

(** C2. On a tick taken in [Spinup] or [Running] at a time that has reached
    the expiry of the active setpoint, the state becomes [Idle], and the
    controller after the tick is the one that the same tick leaves when
    [stop] was called just before it. In particular: a non-zero setpoint
    accepted in [Idle] at time [clock c] with time-to-live [ttl], followed by
    any ticks without a facade call, is expired in this way by the first
    tick at or after [clock c + ttl] that finds the controller in [Spinup] or
    [Running]. *)
Theorem setpoint_ttl_expiry_stops :
  (forall (c : Controller) (cmd : ControlCommand) (i : TickInput),
      getState c = Spinup \/ getState c = Running ->
      command c = Some cmd ->
      expiry cmd <= now i ->
      getState (tick i c) = Idle /\
      tick i c = tick i (stop setSetpoint c)) /\
  (forall (c : Controller) (m : ControlMode) (v ttl : Const)
          (i0 : TickInput) (inputs : list TickInput) (i : TickInput),
      getState c = Idle -> ~ v == 0 ->
      let c' := run inputs (tick i0 (setSetpoint m v ttl c)) in
      getState c' = Spinup \/ getState c' = Running ->
      clock c + ttl <= now i ->
      getState (tick i c') = Idle /\
      tick i c' = tick i (stop setSetpoint c')).
Proof.
  assert (G : forall c cmd i,
             getState c = Spinup \/ getState c = Running ->
             command c = Some cmd -> expiry cmd <= now i ->
             getState (tick i c) = Idle /\ tick i c = tick i (stop setSetpoint c)).
  { intros c cmd i Hstate Hcmd Hexp.
    assert (Hd : is_driving (state c) = true)
      by (unfold getState in Hstate; destruct Hstate as [-> | ->]; reflexivity).
    rewrite (tick_expired c cmd i Hd Hcmd Hexp), tick_stop. split; reflexivity. }
  split; [exact G|].
  intros c m v ttl i0 inputs i Hi Hv c' Hstate Hexp.
  pose proof (run_keeps_command _ inputs _ (accepted_keeps_command c m v ttl i0 Hi Hv))
    as [_ Hk].
  fold c' in Hk.
  assert (Hd : is_driving (state c') = true)
    by (unfold getState in Hstate; destruct Hstate as [-> | ->]; reflexivity).
  apply (G c' _ i Hstate (Hk Hd)). exact Hexp.
Qed.

Lemma setpoint_ttl_expiry_stops_witness :
  (getState (tick (quiet (101 # 100)) running_example) = Idle /\
   tick (quiet (101 # 100)) running_example
   = tick (quiet (101 # 100)) (stop setSetpoint running_example)) /\
  (getState (tick (quiet (101 # 100)) after_spinup_example) = Idle /\
   tick (quiet (101 # 100)) after_spinup_example
   = tick (quiet (101 # 100)) (stop setSetpoint after_spinup_example)).
Proof.
  split.
  - apply (proj1 setpoint_ttl_expiry_stops running_example
             {| control_mode := ControlMode_cast 0; value := 5; expiry := 1 |}
             (quiet (101 # 100))).
    + right. reflexivity.
    + reflexivity.
    + simpl. unfold Qle. simpl. lia.
  - apply (proj2 setpoint_ttl_expiry_stops initial (ControlMode_cast 0) 5 1
             (quiet 0) [spinup_succeeded (1 # 10); quiet (1 # 2)]
             (quiet (101 # 100))).
    + reflexivity.
    + intros H. discriminate H.
    + right. reflexivity.
    + simpl. unfold Qle. simpl. lia.
Defined.

(** C3. In every state other than [Idle], [setSetpoint] with a non-zero
    value, [beginMotorIdentification] and [beginHardwareTest] return the
    controller as it was: state, active setpoint and side buffer are
    unchanged. A setpoint of value zero is staged in every state. *)
Theorem busy_rejection :
  forall c : Controller,
    (getState c <> Idle ->
     (forall (control_mode : ControlMode) (value request_ttl : Const),
         ~ value == 0 -> setSetpoint control_mode value request_ttl c = c) /\
     (forall mode : motor_id_Mode, beginMotorIdentification mode c = c) /\
     beginHardwareTest c = c) /\
    (forall (control_mode : ControlMode) (request_ttl : Const),
        setSetpoint control_mode 0 request_ttl c
        = stage (SetpointRequest control_mode 0 request_ttl (clock c)) c).
Proof.
  intros c. split.
  - intros Hbusy. unfold getState in Hbusy.
    pose proof (is_idle_false _ Hbusy) as Hi.
    repeat split.
    + intros m v ttl Hv. unfold setSetpoint.
      rewrite (Qeq_bool_false_of_neq v Hv), Hi. reflexivity.
    + intros mode. unfold beginMotorIdentification. rewrite Hi. reflexivity.
    + unfold beginHardwareTest. rewrite Hi. reflexivity.
  - intros m ttl. reflexivity.
Qed.

Lemma busy_rejection_witness :
  getState (beginHardwareTest identifying_example) = MotorIdentification /\
  setSetpoint (ControlMode_cast 0) 5 1 identifying_example = identifying_example /\
  beginMotorIdentification (motor_id_Mode_cast 0) identifying_example
  = identifying_example.
Proof.
  destruct (proj1 (busy_rejection identifying_example)) as (Hs & Hm & Hh).
  - simpl. discriminate.
  - split; [rewrite Hh; reflexivity|]. split.
    + apply Hs. intros H. discriminate H.
    + apply Hm.
Defined.

(** C8. [stop] is [setSetpoint] with control mode 0, value 0 and ttl 0:
    whatever [setSetpoint] does on the controller context, [stop] does the
    same on it. *)
Theorem stop_is_zero_setpoint :
  forall (Context_ : Type)
         (setSetpoint : ControlMode -> Const -> Const -> Context_ -> Context_)
         (c : Context_),
    stop setSetpoint c = setSetpoint (ControlMode_cast 0) 0 0 c.
Proof.
  intros Context_ setSetpoint c. unfold stop. reflexivity.
Qed.

(** C10. [stateToString] gives each of the six states a name that is not
    empty and is not the fallback "BADSTATE", and no two states share a
    name. *)
Theorem stateToString_total_injective :
  (forall s : State,
      stateToString s <> "BADSTATE"%string /\ stateToString s <> ""%string) /\
  (forall s1 s2 : State, stateToString s1 = stateToString s2 -> s1 = s2) /\
  (forall s : State, In s all_states) /\
  NoDup (List.map stateToString all_states).
Proof.
  split; [|split; [|split]].
  - intros s. destruct s; split; discriminate.
  - intros s1 s2. destruct s1, s2; simpl; intros H;
      first [reflexivity | discriminate H].
  - intros s. destruct s; simpl; tauto.
  - unfold all_states. simpl.
    repeat (constructor; [simpl; intros H;
                          repeat (destruct H as [H | H]; [discriminate H|]);
                          exact H|]).
    constructor.
Qed.

Lemma stateToString_total_injective_witness :
  (stateToString Fault <> "BADSTATE"%string /\ stateToString Fault <> ""%string) /\
  Spinup = Spinup.
Proof.
  split.
  - apply (proj1 stateToString_total_injective Fault).
  - apply (proj1 (proj2 stateToString_total_injective) Spinup Spinup).
    reflexivity.
Defined.

(** ** The observer *)

Lemma Pi_pos : 0 < Pi.
Proof. reflexivity. Qed.

Lemma revolution_pos : 0 < 2 * Pi.
Proof. reflexivity. Qed.

(** [constrainAngularPosition] moves its argument by whole revolutions. *)
Lemma constrainAngularPosition_revolutions (x : Const) :
  exists k : Z,
    Observer.constrainAngularPosition x == x - inject_Z k * (2 * Pi).
Proof.
  exists (Qceiling ((x - Pi) / (2 * Pi))). reflexivity.
Qed.

(** Its value is in the principal range (-Pi, Pi]. *)
Lemma constrainAngularPosition_range (x : Const) :
  - Pi < Observer.constrainAngularPosition x /\
  Observer.constrainAngularPosition x <= Pi.
Proof.
  unfold Observer.constrainAngularPosition.
  set (T := 2 * Pi). set (r := (x - Pi) / T). set (k := Qceiling r).
  assert (HT : 0 < T) by exact revolution_pos.
  assert (Hr : r * T == x - Pi).
  { unfold r. rewrite Qmult_comm. apply Qmult_div_r. intros H.
    apply (Qlt_not_eq _ _ HT). symmetry. exact H. }
  assert (Hup : r <= inject_Z k) by apply Qle_ceiling.
  assert (Hlo : inject_Z k - 1 < r).
  { pose proof (Qceiling_lt r) as H. fold k in H.
    unfold Z.sub in H. rewrite inject_Z_plus in H. exact H. }
  apply (Qmult_le_compat_r _ _ T) in Hup; [|apply Qlt_le_weak; exact HT].
  apply (Qmult_lt_compat_r _ _ T) in Hlo; [|exact HT].
  rewrite Hr in Hup, Hlo.
  assert (HTP : T == 2 * Pi) by reflexivity.
  split.
  - apply Qlt_minus_iff. apply Qlt_minus_iff in Hlo.
    setoid_replace (x - inject_Z k * T + - - Pi)
      with (x - Pi + - ((inject_Z k - 1) * T)) by (rewrite HTP; ring).
    exact Hlo.
  - apply Qle_minus_iff. apply Qle_minus_iff in Hup.
    setoid_replace (Pi + - (x - inject_Z k * T))
      with (inject_Z k * T + - (x - Pi)) by ring.
    exact Hup.
Qed.

(** A position already in the principal range is left where it is. *)
Lemma constrainAngularPosition_fixes_range (x : Const) :
  - Pi < x -> x <= Pi -> Observer.constrainAngularPosition x == x.
Proof.
  intros Hlo Hhi. unfold Observer.constrainAngularPosition.
  assert (HT : 0 < 2 * Pi) by exact revolution_pos.
  assert (Hk : Qceiling ((x - Pi) / (2 * Pi)) = 0%Z).
  { assert (H1 : (x - Pi) / (2 * Pi) <= 0).
    { apply Qle_shift_div_r; [exact HT|]. rewrite Qmult_0_l.
      apply Qle_minus_iff. setoid_replace (0 + - (x - Pi)) with (Pi + - x) by ring.
      apply Qle_minus_iff in Hhi. exact Hhi. }
    assert (H2 : - (1) < (x - Pi) / (2 * Pi)).
    { apply Qlt_shift_div_l; [exact HT|].
      apply Qlt_minus_iff.
      setoid_replace (x - Pi + - (- (1) * (2 * Pi))) with (x + - - Pi) by ring.
      apply Qlt_minus_iff in Hlo. exact Hlo. }
    pose proof (Qle_ceiling ((x - Pi) / (2 * Pi))) as Hc1.
    pose proof (Qceiling_lt ((x - Pi) / (2 * Pi))) as Hc2.
    set (k := Qceiling ((x - Pi) / (2 * Pi))) in *.
    assert (Hk1 : inject_Z (k - 1) < inject_Z 0) by (eapply Qlt_le_trans; eauto).
    assert (Hk2 : inject_Z (-1) < inject_Z k) by (eapply Qlt_le_trans; eauto).
    rewrite <- Zlt_Qlt in Hk1, Hk2. lia. }
  rewrite Hk. unfold inject_Z. ring.
Qed.


(** *** The wrap in single precision *)

Lemma two_power_pos (e : Z) : 0 < 2 ^ e.
Proof. apply Qpower_0_lt. reflexivity. Qed.

Lemma two_not_zero : ~ 2 == 0.
Proof. discriminate. Qed.

(** Shifting the mantissa left and lowering the exponent by as much leaves
    the value. *)
Lemma scale_shift (n d e : Z) :
  (0 <= d)%Z -> inject_Z (n * 2 ^ d) * 2 ^ (e - d) == inject_Z n * 2 ^ e.
Proof.
  intros Hd.
  replace e with ((e - d) + d)%Z at 2 by lia.
  rewrite (Qpower_plus 2 (e - d) d two_not_zero).
  rewrite inject_Z_mult, (Zpower_Qpower 2 d Hd).
  change (inject_Z 2) with 2. ring.
Qed.

Lemma iter_xO (m d : positive) :
  Zpos (Pos.iter xO m d) = (Zpos m * 2 ^ Zpos d)%Z.
Proof.
  induction d as [| d IH] using Pos.peano_ind.
  - simpl. lia.
  - rewrite Pos.iter_succ, Pos2Z.inj_succ, Z.pow_succ_r by lia.
    rewrite Pos2Z.inj_xO, IH. ring.
Qed.

Lemma shl_align_value (m : positive) (e e' : Z) :
  let '(mz, ez) := shl_align m e e' in
  inject_Z (Zpos mz) * 2 ^ ez == inject_Z (Zpos m) * 2 ^ e.
Proof.
  unfold shl_align. destruct (e' - e)%Z as [| d | d] eqn:E; try reflexivity.
  rewrite iter_xO. replace e' with (e - Zpos d)%Z by lia.
  apply scale_shift. lia.
Qed.

Lemma value_normalize (n e : Z) :
  exists v : Q,
    Observer.Single.value (Observer.Single.normalize n e) = Some v /\
    v == inject_Z n * 2 ^ e.
Proof.
  destruct n as [| m | m]; simpl.
  - exists 0. split; [reflexivity | ring].
  - pose proof (shl_align_value m e
                  (fexp Observer.Single.prec Observer.Single.emax
                        (Zpos (digits2_pos m) + e))) as H.
    destruct (shl_align m e _) as [mz ez]. simpl.
    eexists. split; [reflexivity | exact H].
  - pose proof (shl_align_value m e
                  (fexp Observer.Single.prec Observer.Single.emax
                        (Zpos (digits2_pos m) + e))) as H.
    destruct (shl_align m e _) as [mz ez]. simpl.
    eexists. split; [reflexivity|].
    change (Z.neg mz) with (- Z.pos mz)%Z. change (Z.neg m) with (- Z.pos m)%Z.
    rewrite !inject_Z_opp.
    setoid_replace (- inject_Z (Z.pos mz) * 2 ^ ez)
      with (- (inject_Z (Z.pos mz) * 2 ^ ez)) by ring.
    rewrite H. ring.
Qed.

(** The wrap on the integers: [P - (P - X) mod (2 * P)] is [X] moved by a
    multiple of [2 * P] into (-P, P]. *)
Lemma wrap_integer (X P : Z) :
  (0 < P)%Z ->
  let Y := (P - (P - X) mod (2 * P))%Z in
  (- P < Y <= P)%Z /\ exists k : Z, Y = (X - k * (2 * P))%Z.
Proof.
  intros HP Y. unfold Y.
  pose proof (Z.mod_pos_bound (P - X) (2 * P) ltac:(lia)) as Hb.
  pose proof (Z.div_mod (P - X) (2 * P) ltac:(lia)) as Hd.
  split; [lia|].
  exists (- ((P - X) / (2 * P)))%Z. lia.
Qed.

Lemma Pi_value : math.Pi == inject_Z Observer.Single.Pi_mantissa * 2 ^ Observer.Single.Pi_exponent.
Proof. reflexivity. Qed.

(** What the modelled wrap returns on a finite value: a finite value, a
    whole number of revolutions away, in (-Pi, Pi]. *)
Lemma constrainAngularPosition_single_finite (x : Observer.Single.Scalar) (q : Q) :
  Observer.Single.value x = Some q ->
  exists (y : Q) (k : Z),
    Observer.Single.value (Observer.Single.constrainAngularPosition x) = Some y /\
    y == q - inject_Z k * (2 * math.Pi) /\
    - math.Pi < y /\ y <= math.Pi.
Proof.
  destruct x as [s | s | | s m e]; simpl; intros Hq; try discriminate Hq.
  - injection Hq as <-. exists 0, 0%Z. split; [reflexivity|].
    split; [ring | split; [reflexivity | discriminate]].
  - injection Hq as <-.
    set (sm := cond_Zopp s (Z.pos m)).
    set (c := Z.min e Observer.Single.Pi_exponent).
    set (X := (sm * 2 ^ (e - c))%Z).
    set (P := (Observer.Single.Pi_mantissa * 2 ^ (Observer.Single.Pi_exponent - c))%Z).
    assert (Hc1 : (0 <= e - c)%Z) by (unfold c; lia).
    assert (Hc2 : (0 <= Observer.Single.Pi_exponent - c)%Z) by (unfold c; lia).
    assert (HP : (0 < P)%Z).
    { unfold P. apply Z.mul_pos_pos; [reflexivity|].
      apply Z.pow_pos_nonneg; lia. }
    destruct (wrap_integer X P HP) as [[Hlo Hhi] [k Hk]].
    destruct (value_normalize (P - (P - X) mod (2 * P)) c) as [v [Hv Ev]].
    exists v, k. split; [exact Hv|].
    assert (EX : inject_Z X * 2 ^ c == inject_Z sm * 2 ^ e).
    { unfold X. replace c with (e - (e - c))%Z at 2 by lia.
      apply scale_shift. exact Hc1. }
    assert (EP : inject_Z P * 2 ^ c == math.Pi).
    { rewrite Pi_value. unfold P.
      replace c with (Observer.Single.Pi_exponent - (Observer.Single.Pi_exponent - c))%Z
        at 2 by lia.
      apply scale_shift. exact Hc2. }
    pose proof (two_power_pos c) as Hpow.
    split; [|split].
    + rewrite Ev, Hk, <- EX, <- EP.
      unfold Z.sub. rewrite inject_Z_plus, inject_Z_opp, !inject_Z_mult.
      change (inject_Z 2) with 2. ring.
    + rewrite Ev, <- EP.
      setoid_replace (- (inject_Z P * 2 ^ c)) with (inject_Z (- P) * 2 ^ c)
        by (rewrite inject_Z_opp; ring).
      apply Qmult_lt_compat_r; [exact Hpow|].
      rewrite <- Zlt_Qlt. exact Hlo.
    + rewrite Ev, <- EP.
      apply Qmult_le_compat_r; [|apply Qlt_le_weak; exact Hpow].
      rewrite <- Zle_Qle. exact Hhi.
Qed.




(** The modelled wrap stays in the format. *)

Lemma digits_lower (m : positive) :
  (2 ^ (Zpos (digits2_pos m) - 1) <= Zpos m)%Z.
Proof.
  induction m as [m IH | m IH |]; simpl digits2_pos.
  - rewrite Pos2Z.inj_succ. replace (Z.succ (Z.pos (digits2_pos m)) - 1)%Z
      with (Z.succ (Z.pos (digits2_pos m) - 1)) by lia.
    rewrite Z.pow_succ_r by lia. lia.
  - rewrite Pos2Z.inj_succ. replace (Z.succ (Z.pos (digits2_pos m)) - 1)%Z
      with (Z.succ (Z.pos (digits2_pos m) - 1)) by lia.
    rewrite Z.pow_succ_r by lia. lia.
  - simpl. lia.
Qed.

Lemma digits_le (m : positive) (n : Z) :
  (0 <= n)%Z -> (Zpos m < 2 ^ n)%Z -> (Zpos (digits2_pos m) <= n)%Z.
Proof.
  intros Hn Hm. pose proof (digits_lower m) as Hl.
  destruct (Z_le_gt_dec (Zpos (digits2_pos m)) n) as [|Hgt]; [assumption|].
  exfalso.
  assert (2 ^ n <= 2 ^ (Zpos (digits2_pos m) - 1))%Z
    by (apply Z.pow_le_mono_r; lia).
  lia.
Qed.

Lemma digits_upper (m : positive) :
  (Zpos m < 2 ^ Zpos (digits2_pos m))%Z.
Proof.
  induction m as [m IH | m IH |]; simpl digits2_pos.
  - rewrite Pos2Z.inj_succ, Z.pow_succ_r by lia. lia.
  - rewrite Pos2Z.inj_succ, Z.pow_succ_r by lia. lia.
  - simpl. lia.
Qed.

Lemma digits_iter_xO (m d : positive) :
  Zpos (digits2_pos (Pos.iter xO m d)) = (Zpos (digits2_pos m) + Zpos d)%Z.
Proof.
  induction d as [| d IH] using Pos.peano_ind.
  - simpl. lia.
  - rewrite Pos.iter_succ. simpl digits2_pos. lia.
Qed.

Lemma shl_align_bounded (m : positive) (c : Z) :
  (Zpos m < 2 ^ 24)%Z -> (-149 <= c <= 104)%Z ->
  let '(mz, ez) := shl_align m c (fexp Observer.Single.prec Observer.Single.emax
                                      (Zpos (digits2_pos m) + c)) in
  bounded Observer.Single.prec Observer.Single.emax mz ez = true.
Proof.
  intros Hm Hc.
  pose proof (digits_le m 24 ltac:(lia) Hm) as Hd.
  unfold shl_align, bounded, canonical_mantissa, fexp, emin,
    Observer.Single.prec, Observer.Single.emax.
  destruct (Z.max (Z.pos (digits2_pos m) + c - 24) (3 - 128 - 24) - c)%Z
    as [| d | d] eqn:E.
  - apply andb_true_intro. split; [apply Z.eqb_eq | apply Z.leb_le]; lia.
  - exfalso. lia.
  - rewrite digits_iter_xO.
    apply andb_true_intro. split; [apply Z.eqb_eq | apply Z.leb_le]; lia.
Qed.

Lemma normalize_valid (n c : Z) :
  (Z.abs n < 2 ^ 24)%Z -> (-149 <= c <= 104)%Z ->
  valid_binary Observer.Single.prec Observer.Single.emax
               (Observer.Single.normalize n c) = true.
Proof.
  intros Hn Hc. destruct n as [| m | m]; simpl.
  - reflexivity.
  - pose proof (shl_align_bounded m c ltac:(lia) Hc) as H.
    destruct (shl_align m c _) as [mz ez]. exact H.
  - pose proof (shl_align_bounded m c ltac:(lia) Hc) as H.
    destruct (shl_align m c _) as [mz ez]. exact H.
Qed.

(** On a value of the format the modelled wrap returns a value of the
    format: the wrapped number needs no rounding. *)
Lemma constrainAngularPosition_single_valid (x : Observer.Single.Scalar) :
  valid_binary Observer.Single.prec Observer.Single.emax x = true ->
  valid_binary Observer.Single.prec Observer.Single.emax
               (Observer.Single.constrainAngularPosition x) = true.
Proof.
  destruct x as [s | s | | s m e]; try (intros _; reflexivity).
  intros Hb. unfold Observer.Single.constrainAngularPosition.
  unfold valid_binary, bounded, canonical_mantissa, fexp, emin,
    Observer.Single.prec, Observer.Single.emax in Hb.
  apply andb_prop in Hb. destruct Hb as [Hcan He].
  apply Z.eqb_eq in Hcan. apply Z.leb_le in He.
  pose proof (digits_upper m) as Hup.
  assert (Hm : (Zpos m < 2 ^ 24)%Z).
  { eapply Z.lt_le_trans; [exact Hup|]. apply Z.pow_le_mono_r; lia. }
  set (sm := cond_Zopp s (Z.pos m)).
  assert (Hsm : (Z.abs sm = Zpos m)%Z) by (unfold sm; destruct s; simpl; lia).
  set (c := Z.min e Observer.Single.Pi_exponent).
  set (X := (sm * 2 ^ (e - c))%Z).
  set (P := (Observer.Single.Pi_mantissa * 2 ^ (Observer.Single.Pi_exponent - c))%Z).
  assert (HP : (0 < P)%Z).
  { unfold P. apply Z.mul_pos_pos; [reflexivity|].
    apply Z.pow_pos_nonneg; unfold c; lia. }
  destruct (wrap_integer X P HP) as [[Hlo Hhi] _].
  assert (Hc : (-149 <= c <= 104)%Z) by (unfold c, Observer.Single.Pi_exponent; lia).
  assert (HA : (-22 <= e -> P = 13176795)%Z).
  { intros Hge. unfold P, Observer.Single.Pi_exponent, Observer.Single.Pi_mantissa.
    replace c with (-22)%Z by (unfold c, Observer.Single.Pi_exponent; lia).
    reflexivity. }
  assert (HB : (e < -22 -> X = sm /\ 16777216 < P)%Z).
  { intros Hlt.
    assert (Ec : c = e) by (unfold c, Observer.Single.Pi_exponent; lia).
    split.
    - unfold X. rewrite Ec, Z.sub_diag. simpl. lia.
    - unfold P, Observer.Single.Pi_exponent, Observer.Single.Pi_mantissa.
      rewrite Ec.
      assert (2 ^ 1 <= 2 ^ (-22 - e))%Z by (apply Z.pow_le_mono_r; lia).
      change (2 ^ 1)%Z with 2%Z in H. lia. }
  change (2 ^ 24)%Z with 16777216%Z in Hm.
  apply normalize_valid; [|exact Hc].
  change (2 ^ 24)%Z with 16777216%Z.
  clearbody P X c sm.
  destruct (Z_le_gt_dec (-22) e) as [Hge | Hlt].
  - rewrite (HA Hge) in *. lia.
  - destruct (HB ltac:(lia)) as [EX HP2]. subst X.
    assert (EY : ((P - sm) mod (2 * P) = P - sm)%Z)
      by (apply Z.mod_small; lia).
    rewrite EY. lia.
Qed.

(** Two numbers of the principal range that are whole revolutions away from
    the same number are the same. *)
Lemma wrap_unique (q y1 y2 : Q) (k1 k2 : Z) :
  y1 == q - inject_Z k1 * (2 * math.Pi) ->
  y2 == q - inject_Z k2 * (2 * math.Pi) ->
  - math.Pi < y1 -> y1 <= math.Pi ->
  - math.Pi < y2 -> y2 <= math.Pi ->
  y1 == y2.
Proof.
  intros E1 E2 L1 U1 L2 U2.
  assert (Hk : k1 = k2).
  { destruct (Z_lt_le_dec k1 k2) as [Hlt | Hge].
    - exfalso. assert (H : inject_Z k1 + 1 <= inject_Z k2).
      { change 1 with (inject_Z 1). rewrite <- inject_Z_plus, <- Zle_Qle. lia. }
      unfold math.Pi in *. lra.
    - destruct (Z_lt_le_dec k2 k1) as [Hlt | Hge']; [|lia].
      exfalso. assert (H : inject_Z k2 + 1 <= inject_Z k1).
      { change 1 with (inject_Z 1). rewrite <- inject_Z_plus, <- Zle_Qle. lia. }
      unfold math.Pi in *. lra. }
  subst k2. rewrite E1, E2. reflexivity.
Qed.

(** The wrap in single precision returns the value that the wrap on the
    numbers gives. *)
Lemma constrainAngularPosition_single_value (x : Observer.Single.Scalar) (q : Q) :
  Observer.Single.value x = Some q ->
  exists y : Q,
    Observer.Single.value (Observer.Single.constrainAngularPosition x) = Some y /\
    y == Observer.constrainAngularPosition q.
Proof.
  intros Hq.
  destruct (constrainAngularPosition_single_finite x q Hq) as (y & k & Hy & Ek & Lo & Hi).
  exists y. split; [exact Hy|].
  destruct (constrainAngularPosition_revolutions q) as [k' Ek'].
  destruct (constrainAngularPosition_range q) as [Lo' Hi'].
  exact (wrap_unique q y _ k k' Ek Ek' Lo Hi Lo' Hi').
Qed.

Lemma Pi_single_value :
  Observer.Single.value Observer.Single.Pi
  = Some (inject_Z Observer.Single.Pi_mantissa * 2 ^ Observer.Single.Pi_exponent) /\
  valid_binary Observer.Single.prec Observer.Single.emax Observer.Single.Pi = true.
Proof. split; reflexivity. Qed.










(** C7. [getIdq] returns the coefficients 0 and 1 of the state vector, and
    the object after the call is the object before it, state vector and
    covariance included. *)
Theorem getIdq_spec :
  forall self : Observer.t,
    fst (Observer.getIdq self)
    = (coeff 0 (Observer.x_ self) 0, (coeff 0 (Observer.x_ self) 1, tt)) /\
    snd (Observer.getIdq self) = self /\
    Observer.x_ (snd (Observer.getIdq self)) = Observer.x_ self /\
    Observer.P_ (snd (Observer.getIdq self)) = Observer.P_ self.
Proof.
  intros self. repeat split.
Qed.

(** ** The scenarios of the spec, evaluated *)

(** The [switch] falls through to "BADSTATE" on a value that is no
    enumerator. *)
Example stateToString_value_fallback :
  stateToString_value 6 = "BADSTATE"%string.
Proof. reflexivity. Qed.

(** [setSetpoint(mode, 5.0, 1.0)] at time 0: spinning up, then running, and
    idle on the tick at 1.01 s. *)
Example setpoint_ttl_scenario :
  List.map (fun inputs => getState (run inputs (setSetpoint (ControlMode_cast 0) 5 1 initial)))
           [[quiet 0];
            [quiet 0; spinup_succeeded (1 # 10)];
            [quiet 0; spinup_succeeded (1 # 10); quiet (99 # 100)];
            [quiet 0; spinup_succeeded (1 # 10); quiet (101 # 100)]]
  = [Spinup; Running; Running; Idle].
Proof. reflexivity. Qed.

(** A failed hardware test latches the fault; a non-zero setpoint does not
    clear it, [stop] does. *)
Example fault_latch_scenario :
  let failed := {| now := 1; identification_completed := false;
                   hardware_test_result := Some false;
                   spinup_result := None; runtime_fault := false |} in
  let c := run [quiet 0; failed] (beginHardwareTest initial) in
  getState c = Fault /\
  getErrorCount c = 1%nat /\
  getState (tick (quiet 2) (setSetpoint (ControlMode_cast 0) 5 1 c)) = Fault /\
  getState (tick (quiet 2) (stop setSetpoint c)) = Idle.
Proof. repeat split. Qed.

(** A velocity of 10 rad/s extrapolated over one second, more than one
    revolution: the position returned is 10 less two revolutions, and it is
    a value of the format. *)
Example interpolation_scenario :
  (exists y : Q,
      Observer.Single.value
        (fst (Observer.Single.getInterpolatedAngularPosition
                Observer.Single.one Observer.Single.fast_example)) = Some y /\
      y == 10 - 2 * (2 * Pi)) /\
  valid_binary Observer.Single.prec Observer.Single.emax
    (fst (Observer.Single.getInterpolatedAngularPosition
            Observer.Single.one Observer.Single.fast_example)) = true.
Proof.
  split; [|reflexivity].
  eexists. split; [vm_compute; reflexivity | reflexivity].
Qed.

(** ** Further properties of the code in the two headers *)

(** *** [stateToString] on values that are no enumerator *)

Lemma stateToString_value_outside (v : Z) :
  (v < 0 \/ 5 < v)%Z -> stateToString_value v = "BADSTATE"%string.
Proof.
  intros H. destruct v as [| p | p].
  - lia.
  - destruct p as [[[p | p |] | [p | p |] |] | [[p | p |] | [p | p |] |] |];
      try reflexivity; lia.
  - reflexivity.
Qed.

Lemma stateToString_value_inside (v : Z) :
  (0 <= v <= 5)%Z -> exists s : State, State_value s = v.
Proof.
  intros H.
  assert (C : (v = 0 \/ v = 1 \/ v = 2 \/ v = 3 \/ v = 4 \/ v = 5)%Z) by lia.
  destruct C as [-> | [-> | [-> | [-> | [-> | ->]]]]].
  - now exists Idle.
  - now exists MotorIdentification.
  - now exists HardwareTesting.
  - now exists Spinup.
  - now exists Running.
  - now exists Fault.
Qed.

(** X1. The fallback of [stateToString]: on the value held by a [State]
    object the function returns "BADSTATE" exactly when that value is the
    value of no enumerator, that is when it is below 0 or above 5; and it
    returns a non-empty string on every value. *)
Theorem stateToString_value_fallback_iff :
  forall v : Z,
    (stateToString_value v = "BADSTATE"%string <-> (v < 0 \/ 5 < v)%Z) /\
    (stateToString_value v = "BADSTATE"%string <-> forall s : State, State_value s <> v) /\
    stateToString_value v <> ""%string.
Proof.
  intros v.
  assert (Hin : (0 <= v <= 5)%Z -> stateToString_value v <> "BADSTATE"%string
                                   /\ stateToString_value v <> ""%string).
  { intros H. destruct (stateToString_value_inside v H) as [s <-].
    destruct s; split; discriminate. }
  assert (Hrange : stateToString_value v = "BADSTATE"%string <-> (v < 0 \/ 5 < v)%Z).
  { split.
    - intros E. destruct (Z_lt_dec v 0) as [|H0]; [now left|].
      destruct (Z_lt_dec 5 v) as [|H5]; [now right|].
      exfalso. apply (proj1 (Hin ltac:(lia))). exact E.
    - apply stateToString_value_outside. }
  split; [exact Hrange | split].
  - rewrite Hrange. split.
    + intros H s E. destruct s; simpl in E; lia.
    + intros H. destruct (Z_lt_dec v 0) as [|H0]; [now left|].
      destruct (Z_lt_dec 5 v) as [|H5]; [now right|].
      exfalso. destruct (stateToString_value_inside v ltac:(lia)) as [s E].
      exact (H s E).
  - destruct (Z_lt_dec v 0) as [H0|H0];
      [rewrite stateToString_value_outside by (now left); discriminate|].
    destruct (Z_lt_dec 5 v) as [H5|H5];
      [rewrite stateToString_value_outside by (now right); discriminate|].
    apply Hin. lia.
Qed.

Lemma stateToString_value_fallback_iff_witness :
  stateToString_value (-1) = "BADSTATE"%string /\
  (forall s : State, State_value s <> 6%Z).
Proof.
  split.
  - apply (proj2 (proj1 (stateToString_value_fallback_iff (-1)))). left. lia.
  - apply (proj1 (proj1 (proj2 (stateToString_value_fallback_iff 6)))).
    reflexivity.
Defined.

(** *** What the accessors of [Observer] read *)

(** X2. The block that [getIdq] reads, the coefficient that
    [getAngularVelocity] reads and the coefficient at
    [StateIndexAngularPosition] make up the state vector, each coefficient
    once: two observers have the same state vector exactly when they agree
    on these three, whatever their covariances and constants are. *)
Theorem accessors_determine_state_vector :
  forall s1 s2 : Observer.t,
    Observer.x_ s1 = Observer.x_ s2 <->
    (fst (Observer.getIdq s1) = fst (Observer.getIdq s2) /\
     fst (Observer.getAngularVelocity s1) = fst (Observer.getAngularVelocity s2) /\
     coeff 0 (Observer.x_ s1) Observer.StateIndexAngularPosition
     = coeff 0 (Observer.x_ s2) Observer.StateIndexAngularPosition).
Proof.
  intros s1 s2.
  unfold Observer.getIdq, Observer.getAngularVelocity, Observer.read. simpl.
  destruct (Observer.x_ s1) as (a1 & b1 & c1 & d1 & []).
  destruct (Observer.x_ s2) as (a2 & b2 & c2 & d2 & []).
  unfold block. simpl. split.
  - intros E. injection E as -> -> -> ->. repeat split.
  - intros (E & -> & ->). injection E as -> ->. reflexivity.
Qed.

Lemma accessors_determine_state_vector_witness :
  Observer.x_ Observer.constructed_example
  = Observer.x_ (snd (Observer.assign_states
                        (constant 4 0) (asDense (makeDiagonalMatrix4 1 1 1 1))
                        Observer.constructed_example)).
Proof.
  apply (proj2 (accessors_determine_state_vector
                  Observer.constructed_example
                  (snd (Observer.assign_states
                          (constant 4 0) (asDense (makeDiagonalMatrix4 1 1 1 1))
                          Observer.constructed_example)))).
  repeat split.
Defined.

(** *** The argument that [getInterpolatedAngularPosition] passes on *)




(** *** The default [ObserverParameters] *)

(** X4. The default member initialisers of [ObserverParameters] give
    covariances whose diagonal entries are all positive, for the process
    noise [Q], the measurement noise [R] and the initial covariance [P0],
    and a cross-coupling compensation strictly between 0 and 1. *)
Theorem default_parameters_positive :
  (forall i : nat, (i < 4)%nat ->
      0 < coeff 0 (ObserverParameters.Q ObserverParameters.default) i /\
      0 < coeff 0 (ObserverParameters.P0 ObserverParameters.default) i) /\
  (forall i : nat, (i < 2)%nat ->
      0 < coeff 0 (ObserverParameters.R ObserverParameters.default) i) /\
  0 < ObserverParameters.cross_coupling_compensation ObserverParameters.default /\
  ObserverParameters.cross_coupling_compensation ObserverParameters.default < 1.
Proof.
  split; [|split; [|split]].
  - intros i Hi.
    destruct i as [|[|[|[|i]]]]; [| | | | lia]; split; reflexivity.
  - intros i Hi.
    destruct i as [|[|i]]; [| | lia]; reflexivity.
  - reflexivity.
  - reflexivity.
Qed.

Lemma default_parameters_positive_witness :
  (0 < coeff 0 (ObserverParameters.Q ObserverParameters.default) 3 /\
   0 < coeff 0 (ObserverParameters.P0 ObserverParameters.default) 3) /\
  0 < coeff 0 (ObserverParameters.R ObserverParameters.default) 1.
Proof.
  split.
  - apply (proj1 default_parameters_positive 3%nat). lia.
  - apply (proj1 (proj2 default_parameters_positive) 1%nat). lia.
Defined.
